(** * A shallow embedding of the fuel-ledger bot (src/main.py)

    The bot keeps one [State] object and mutates it from its command
    handlers.  Every handler is embedded as a function from the state
    before the command to the state after it together with the reply
    that is sent.

    Numbers.  The program computes with Python floats.  They are
    embedded as exact rationals [Q]: comparisons, the tolerance [1e-9],
    the order of the tests and every arithmetic expression are the ones
    of the source, rounding is not modelled.  A numeric argument is a
    number: the texts "nan" and "inf", which [float] also accepts and
    which pass the handlers' [<= 0] guards, have no value here.  A
    statement that equates a stored field with the expression the
    handler evaluates for it is read off the handler as it is, and
    the theorems are stated that way, field by field; an equation
    between sums of several updates would hold by the laws of exact
    arithmetic only, which rounding does not keep.  Equalities up to
    the representation of a rational are written [==].

    Dictionaries.  [users] and [ride_start] are finite maps keyed by the
    telegram user id.  [tank] and [debt] always have exactly the two
    keys of [ALLOWED_BUCKETS] (their default factory creates both and no
    handler adds or removes a key), so they are records with one field
    per bucket, read with [get] and written with [set]. *)

From Stdlib Require Import Ascii String QArith Qminmax Lqa.
From stdpp Require Import base option strings gmap.

Local Open Scope Q_scope.

(** ** Config and state *)

(** ALLOWED_BUCKETS = ("Aditya", "Archit") *)
Inductive bucket : Type := Aditya | Archit.


(** Python's [str.isspace], [str.islower] and [str.isupper] on the
    characters of plain ASCII text; the bytes of any other character
    are kept as they are, and no such text becomes a bucket name. *)
Definition is_space (c : ascii) : bool :=
  let n := nat_of_ascii c in
  (((9 <=? n) && (n <=? 13)) || ((28 <=? n) && (n <=? 32)))%nat.
Definition is_lower (c : ascii) : bool :=
  let n := nat_of_ascii c in ((97 <=? n) && (n <=? 122))%nat.
Definition is_upper (c : ascii) : bool :=
  let n := nat_of_ascii c in ((65 <=? n) && (n <=? 90))%nat.
Definition to_upper (c : ascii) : ascii :=
  if is_lower c then ascii_of_nat (nat_of_ascii c - 32) else c.
Definition to_lower (c : ascii) : ascii :=
  if is_upper c then ascii_of_nat (nat_of_ascii c + 32) else c.

(** [str.strip()]: leading and trailing whitespace removed. *)
Fixpoint lstrip (t : string) : string :=
  match t with
  | String c t' => if is_space c then lstrip t' else t
  | EmptyString => EmptyString
  end.
Fixpoint rstrip (t : string) : string :=
  match t with
  | String c t' =>
      match rstrip t' with
      | EmptyString => if is_space c then EmptyString else String c EmptyString
      | r => String c r
      end
  | EmptyString => EmptyString
  end.
Definition strip (t : string) : string := rstrip (lstrip t).

(** [str.title()]: a letter that follows a letter is put in lower
    case, any other letter in upper case. *)
Fixpoint title_from (previous_is_cased : bool) (t : string) : string :=
  match t with
  | String c t' =>
      if is_lower c || is_upper c then
        String (if previous_is_cased then to_lower c else to_upper c)
               (title_from true t')
      else String c (title_from false t')
  | EmptyString => EmptyString
  end.
Definition title (t : string) : string := title_from false t.

(** [bucket in ALLOWED_BUCKETS] *)
Definition parse_bucket (name : string) : option bucket :=
  if String.eqb name "Aditya" then Some Aditya
  else if String.eqb name "Archit" then Some Archit
  else None.

(** DEFAULT_MILEAGE = 40.0 *)
Definition DEFAULT_MILEAGE : Q := 40.

(** the literal 1e-9 used by ride_end and pay *)
Definition EPS : Q := 1 # 1000000000.

(** A dictionary with the two bucket names as keys. *)
Record balances : Type := mkBalances { of_aditya : Q; of_archit : Q }.

Definition get (d : balances) (b : bucket) : Q :=
  match b with Aditya => of_aditya d | Archit => of_archit d end.

Definition set (d : balances) (b : bucket) (v : Q) : balances :=
  match b with
  | Aditya => mkBalances v (of_archit d)
  | Archit => mkBalances (of_aditya d) v
  end.

Record State : Type := mkState {
  users : gmap string bucket;
  tank : balances;
  debt : balances;
  ride_start : gmap string Q;
  mileage : Q;
  last_price_per_liter : Q
}.

(** State() *)
Definition new_state : State :=
  {| users := ∅;
     tank := mkBalances 0 0;
     debt := mkBalances 0 0;
     ride_start := ∅;
     mileage := DEFAULT_MILEAGE;
     last_price_per_liter := 0 |}.

(** Field assignments [state.f = v]. *)
Definition with_users (u : gmap string bucket) (s : State) : State :=
  mkState u (tank s) (debt s) (ride_start s) (mileage s) (last_price_per_liter s).
Definition with_tank (t : balances) (s : State) : State :=
  mkState (users s) t (debt s) (ride_start s) (mileage s) (last_price_per_liter s).
Definition with_debt (d : balances) (s : State) : State :=
  mkState (users s) (tank s) d (ride_start s) (mileage s) (last_price_per_liter s).
Definition with_ride_start (r : gmap string Q) (s : State) : State :=
  mkState (users s) (tank s) (debt s) r (mileage s) (last_price_per_liter s).
Definition with_mileage (m : Q) (s : State) : State :=
  mkState (users s) (tank s) (debt s) (ride_start s) m (last_price_per_liter s).
Definition with_price (p : Q) (s : State) : State :=
  mkState (users s) (tank s) (debt s) (ride_start s) (mileage s) p.

(** ** Helpers *)

(** Python's [a < b] and [a <= b] on numbers. *)
Definition Qltb (a b : Q) : bool :=
  match a ?= b with Lt => true | _ => false end.
Definition Qleb (a b : Q) : bool :=
  match a ?= b with Gt => false | _ => true end.

(** Python's [min(a, b)]: the first argument unless the second is
    strictly smaller. *)
Definition pymin (a b : Q) : Q := if Qltb b a then b else a.

Definition user_bucket (uid : string) (s : State) : option bucket :=
  users s !! uid.

Definition other_bucket (b : bucket) : bucket :=
  match b with Aditya => Archit | Archit => Aditya end.

(** [require_registered] returns the caller's bucket, or [None] after
    replying that the caller is not registered. *)
Definition require_registered (uid : string) (s : State) : option bucket :=
  user_bucket uid s.

(** ** Replies

    One constructor per message the handlers send; the numbers a message
    displays are its arguments. *)
Inductive status_debt : Type :=
| AllSquare
| YouOwe (net_debt_l net_debt_rs : Q)
| OwesYou (net_debt_l net_debt_rs : Q).

Inductive reply : Type :=
| Help
| NotRegistered
| Usage
| InvalidBucket
| Registered (b : bucket)
| MileageSet (kmpl : Q)
| RideStarted (start_km : Q)
| NoRideStarted
| NegativeDistance
| NoMileage
| InsufficientFuel (used_l available_total : Q)
| RideEnded (distance used_l borrowed : Q) (other : bucket)
| FillRecorded (clear_l remaining_liters price : Q) (other : bucket)
| StatusView (tank_aditya tank_archit : Q) (msg : status_debt) (mileage price : Q)
| NoPriceSet
| SettleInfo (liters_owed price cash_value : Q)
| NoDebt
| PaidFull (cleared_l : Q)
| InvalidAmount
| Paid (amount actual_cleared_l remaining_debt : Q)
| ResetDone
| Unknown.

(** A reply that reports a refusal: the command was not carried out. *)
Definition rejection (r : reply) : bool :=
  match r with
  | NotRegistered | Usage | InvalidBucket | NoRideStarted | NegativeDistance
  | NoMileage | InsufficientFuel _ _ | NoPriceSet | NoDebt | InvalidAmount
  | Unknown => true
  | _ => false
  end.

(** ** Commands

    Each handler takes the caller's user id and the command arguments as
    the handler reads them: a numeric argument is [None] when
    [context.args] is too short or [float(...)] raises [ValueError]. *)

(** /start and /help *)
Definition start (s : State) : State * reply := (s, Help).

(** /register <bucket>; [arg] is [context.args[0]] as typed, [None]
    when there is no argument. *)
Definition register (uid : string) (arg : option string) (s : State)
  : State * reply :=
  match arg with
  | None => (s, Usage)
  | Some name =>
    let bucket := title (strip name) in
    match parse_bucket bucket with
    | None => (s, InvalidBucket)
    | Some b => (with_users (<[uid := b]> (users s)) s, Registered b)
    end
  end.

(** /set_mileage <km_per_liter> *)
Definition set_mileage (uid : string) (arg : option Q) (s : State)
  : State * reply :=
  match require_registered uid s with
  | None => (s, NotRegistered)
  | Some _ =>
    match arg with
    | None => (s, Usage)
    | Some kmpl =>
      if Qleb kmpl 0 then (s, Usage)
      else (with_mileage kmpl s, MileageSet kmpl)
    end
  end.

(** /ride_start <odometer_km> *)
Definition ride_start_cmd (uid : string) (arg : option Q) (s : State)
  : State * reply :=
  match require_registered uid s with
  | None => (s, NotRegistered)
  | Some _ =>
    match arg with
    | None => (s, Usage)
    | Some start_km =>
      (with_ride_start (<[uid := start_km]> (ride_start s)) s,
       RideStarted start_km)
    end
  end.

(** /ride_end <odometer_km> *)
Definition ride_end (uid : string) (arg : option Q) (s : State)
  : State * reply :=
  match require_registered uid s with
  | None => (s, NotRegistered)
  | Some bucket =>
    match ride_start s !! uid with
    | None => (s, NoRideStarted)
    | Some start_km =>
      match arg with
      | None => (s, Usage)
      | Some end_km =>
        (* start_km = state.ride_start.pop(uid) *)
        let s1 := with_ride_start (delete uid (ride_start s)) s in
        let distance := end_km - start_km in
        if Qltb distance 0 then
          (with_ride_start (<[uid := start_km]> (ride_start s1)) s1,
           NegativeDistance)
        else if Qleb (mileage s1) 0 then
          (s1, NoMileage)
        else
          let used_l := distance / mileage s1 in
          let me := bucket in
          let other := other_bucket bucket in
          let available_total := get (tank s1) me + get (tank s1) other in
          if Qltb (available_total + EPS) used_l then
            (with_ride_start (<[uid := start_km]> (ride_start s1)) s1,
             InsufficientFuel used_l available_total)
          else if Qleb used_l (get (tank s1) me) then
            (with_tank (set (tank s1) me (get (tank s1) me - used_l)) s1,
             RideEnded distance used_l 0 other)
          else
            let borrowed := used_l - get (tank s1) me in
            let s2 := with_tank (set (tank s1) me 0) s1 in
            let s3 :=
              with_tank (set (tank s2) other (get (tank s2) other - borrowed)) s2 in
            let s4 :=
              with_debt (set (debt s3) me (get (debt s3) me + borrowed)) s3 in
            (s4, RideEnded distance used_l borrowed other)
      end
    end
  end.

(** /fill <liters> <total_cost_rs> *)
Definition fill (uid : string) (args : option (Q * Q)) (s : State)
  : State * reply :=
  match require_registered uid s with
  | None => (s, NotRegistered)
  | Some bucket =>
    match args with
    | None => (s, Usage)
    | Some (liters, total_cost) =>
      if Qleb liters 0 || Qleb total_cost 0 then (s, Usage)
      else
        let price := total_cost / liters in
        let s1 := with_price price s in
        let other := other_bucket bucket in
        let clear_l := pymin liters (get (debt s1) bucket) in
        let s3 :=
          if Qltb 0 clear_l then
            let s2 :=
              with_debt (set (debt s1) bucket (get (debt s1) bucket - clear_l)) s1 in
            with_tank (set (tank s2) other (get (tank s2) other + clear_l)) s2
          else s1 in
        let remaining_liters := liters - clear_l in
        (with_tank
           (set (tank s3) bucket (get (tank s3) bucket + remaining_liters)) s3,
         FillRecorded clear_l remaining_liters price other)
    end
  end.

(** /status *)
Definition status (uid : string) (s : State) : State * reply :=
  match require_registered uid s with
  | None => (s, NotRegistered)
  | Some bucket =>
    let me := bucket in
    let other := other_bucket bucket in
    let debt_msg :=
      if Qltb (get (debt s) other) (get (debt s) me) then
        let net_debt_l := get (debt s) me - get (debt s) other in
        YouOwe net_debt_l (net_debt_l * last_price_per_liter s)
      else if Qltb (get (debt s) me) (get (debt s) other) then
        let net_debt_l := get (debt s) other - get (debt s) me in
        OwesYou net_debt_l (net_debt_l * last_price_per_liter s)
      else AllSquare in
    (s, StatusView (get (tank s) Aditya) (get (tank s) Archit) debt_msg
          (mileage s) (last_price_per_liter s))
  end.

(** /settle *)
Definition settle (uid : string) (s : State) : State * reply :=
  match require_registered uid s with
  | None => (s, NotRegistered)
  | Some bucket =>
    let price := last_price_per_liter s in
    if Qleb price 0 then (s, NoPriceSet)
    else
      let liters_owed := get (debt s) bucket in
      let cash_value := liters_owed * price in
      (s, SettleInfo liters_owed price cash_value)
  end.

(** The argument of /pay after [.strip().lower()]: the word "full", a
    text that [float] accepts, or a text on which it raises. *)
Inductive pay_arg : Type :=
| Full
| Amount (amount : Q)
| NotANumber.

(** /pay <amount_rs|full> *)
Definition pay (uid : string) (arg : option pay_arg) (s : State)
  : State * reply :=
  match require_registered uid s with
  | None => (s, NotRegistered)
  | Some bucket =>
    match arg with
    | None => (s, Usage)
    | Some a =>
      let price := last_price_per_liter s in
      let other := other_bucket bucket in
      match a with
      | Full =>
        let cleared_l := get (debt s) bucket in
        if Qleb cleared_l 0 then (s, NoDebt)
        else
          let s1 := with_debt (set (debt s) bucket 0) s in
          (with_tank (set (tank s1) other (get (tank s1) other + cleared_l)) s1,
           PaidFull cleared_l)
      | NotANumber => (s, InvalidAmount)
      | Amount amount =>
        if Qleb amount 0 then (s, InvalidAmount)
        else if Qleb price 0 then (s, NoPriceSet)
        else
          let liters_to_clear := amount / price in
          let debt_before := get (debt s) bucket in
          if Qltb debt_before EPS then (s, NoDebt)
          else
            let actual_cleared_l := pymin debt_before liters_to_clear in
            let s1 :=
              with_debt
                (set (debt s) bucket (get (debt s) bucket - actual_cleared_l)) s in
            let s2 :=
              with_tank
                (set (tank s1) other (get (tank s1) other + actual_cleared_l)) s1 in
            (s2, Paid amount actual_cleared_l (get (debt s2) bucket))
      end
    end
  end.

(** /reset *)
Definition reset (s : State) : State * reply := (new_state, ResetDone).

(** any other command *)
Definition unknown (s : State) : State * reply := (s, Unknown).

(** ** The bot as a transition system *)

Inductive command : Type :=
| CmdStart
| CmdRegister (uid : string) (arg : option string)
| CmdSetMileage (uid : string) (arg : option Q)
| CmdRideStart (uid : string) (arg : option Q)
| CmdRideEnd (uid : string) (arg : option Q)
| CmdFill (uid : string) (args : option (Q * Q))
| CmdStatus (uid : string)
| CmdSettle (uid : string)
| CmdPay (uid : string) (arg : option pay_arg)
| CmdReset
| CmdUnknown.

(** The handler table of [main]. *)
Definition handle (c : command) (s : State) : State * reply :=
  match c with
  | CmdStart => start s
  | CmdRegister uid arg => register uid arg s
  | CmdSetMileage uid arg => set_mileage uid arg s
  | CmdRideStart uid arg => ride_start_cmd uid arg s
  | CmdRideEnd uid arg => ride_end uid arg s
  | CmdFill uid args => fill uid args s
  | CmdStatus uid => status uid s
  | CmdSettle uid => settle uid s
  | CmdPay uid arg => pay uid arg s
  | CmdReset => reset s
  | CmdUnknown => unknown s
  end.

(** Running a list of commands from a state. *)
Definition run (cs : list command) (s : State) : State :=
  foldl (fun st c => fst (handle c st)) s cs.

(** The states the bot can be in: [post_init] installs [State()] and
    afterwards only the handlers change it. *)
Inductive reachable : State -> Prop :=
| reach_init : reachable new_state
| reach_step s c : reachable s -> reachable (fst (handle c s)).

(** Total liters held in the two tanks. *)
Definition total_tank (s : State) : Q := get (tank s) Aditya + get (tank s) Archit.

(** ** Derived notions used in the statements *)

(** What a command did to the two tanks, given the reply it got: each
    tank of the state after is the expression the handler stored. *)
Definition tank_effect (c : command) (r : reply) (s s' : State) : Prop :=
  match c, r with
  | CmdFill uid (Some (liters, _)), FillRecorded clear_l remaining_liters _ other =>
      exists b, users s !! uid = Some b /\ other = other_bucket b /\
        clear_l = pymin liters (get (debt s) b) /\
        remaining_liters = liters - clear_l /\
        get (tank s') b = get (tank s) b + remaining_liters /\
        ((0 < clear_l /\ get (tank s') other = get (tank s) other + clear_l) \/
         (clear_l == 0 /\ get (tank s') other = get (tank s) other))
  | CmdRideEnd uid _, RideEnded _ used_l borrowed other =>
      exists me, users s !! uid = Some me /\ other = other_bucket me /\
        ((used_l <= get (tank s) me /\ borrowed = 0 /\
          get (tank s') me = get (tank s) me - used_l /\
          get (tank s') other = get (tank s) other) \/
         (get (tank s) me < used_l /\
          borrowed = used_l - get (tank s) me /\
          get (tank s') me = 0 /\
          get (tank s') other = get (tank s) other - borrowed))
  | CmdPay uid _, PaidFull cleared_l =>
      exists b, users s !! uid = Some b /\
        cleared_l = get (debt s) b /\
        get (tank s') b = get (tank s) b /\
        get (tank s') (other_bucket b)
          = get (tank s) (other_bucket b) + cleared_l
  | CmdPay uid (Some (Amount amount)), Paid _ actual_cleared_l _ =>
      exists b, users s !! uid = Some b /\
        actual_cleared_l
          = pymin (get (debt s) b) (amount / last_price_per_liter s) /\
        get (tank s') b = get (tank s) b /\
        get (tank s') (other_bucket b)
          = get (tank s) (other_bucket b) + actual_cleared_l
  | CmdReset, _ => tank s' = mkBalances 0 0
  | _, _ => tank s' = tank s
  end.

(** The state after an accepted ride end of [uid], of bucket [me], that
    used [used_l] liters: when the rider's own tank covers them, and
    when the rider has to borrow. *)
Definition after_own_fuel (s : State) (uid : string) (me : bucket) (used_l : Q)
  : State :=
  {| users := users s;
     tank := set (tank s) me (get (tank s) me - used_l);
     debt := debt s;
     ride_start := delete uid (ride_start s);
     mileage := mileage s;
     last_price_per_liter := last_price_per_liter s |}.

Definition after_borrowing (s : State) (uid : string) (me : bucket) (used_l : Q)
  : State :=
  {| users := users s;
     tank := set (set (tank s) me 0) (other_bucket me)
               (get (tank s) (other_bucket me) - (used_l - get (tank s) me));
     debt := set (debt s) me (get (debt s) me + (used_l - get (tank s) me));
     ride_start := delete uid (ride_start s);
     mileage := mileage s;
     last_price_per_liter := last_price_per_liter s |}.

(** Facts about the states of this model that the proofs below use.
    The bound on the tanks is one of exact arithmetic. *)
Record ledger_inv (s : State) : Prop := mk_ledger_inv {
  inv_debt : forall b, 0 <= get (debt s) b;
  inv_tank : forall b, - EPS <= get (tank s) b;
  inv_mileage : 0 < mileage s
}.

(** The user whose id a command's handler reads; /start, /help, /reset
    and unknown commands do not look at it. *)
Definition caller (c : command) : option string :=
  match c with
  | CmdRegister uid _ | CmdSetMileage uid _ | CmdRideStart uid _
  | CmdRideEnd uid _ | CmdFill uid _ | CmdStatus uid | CmdSettle uid
  | CmdPay uid _ => Some uid
  | CmdStart | CmdReset | CmdUnknown => None
  end.

(** The commands whose handler begins with [require_registered]. *)
Definition needs_registration (c : command) : bool :=
  match c with
  | CmdSetMileage _ _ | CmdRideStart _ _ | CmdRideEnd _ _ | CmdFill _ _
  | CmdStatus _ | CmdSettle _ | CmdPay _ _ => true
  | CmdStart | CmdRegister _ _ | CmdReset | CmdUnknown => false
  end.

(** Total liters owed between the two buckets. *)
Definition total_debt (s : State) : Q := get (debt s) Aditya + get (debt s) Archit.

(** How a command of a user of bucket [me] that got reply [r] moved
    liters between the other bucket's tank and the caller's own debt. *)
Definition lockstep (r : reply) (me : bucket) (s s' : State) : Prop :=
  let other := other_bucket me in
  match r with
  | FillRecorded clear_l _ _ _ =>
      (0 < clear_l /\
       get (tank s') other = get (tank s) other + clear_l /\
       get (debt s') me = get (debt s) me - clear_l) \/
      (clear_l <= 0 /\
       get (tank s') other = get (tank s) other /\
       get (debt s') me = get (debt s) me)
  | RideEnded _ _ borrowed _ =>
      (borrowed = 0 /\
       get (tank s') other = get (tank s) other /\
       get (debt s') me = get (debt s) me) \/
      (0 < borrowed /\
       get (tank s') other = get (tank s) other - borrowed /\
       get (debt s') me = get (debt s) me + borrowed)
  | PaidFull cleared_l =>
      cleared_l = get (debt s) me /\
      get (tank s') other = get (tank s) other + cleared_l /\
      get (debt s') me = 0
  | Paid _ actual_cleared_l _ =>
      get (tank s') other = get (tank s) other + actual_cleared_l /\
      get (debt s') me = get (debt s) me - actual_cleared_l
  | _ =>
      get (tank s') other = get (tank s) other /\
      get (debt s') me = get (debt s) me
  end.

(** The debt line of /status as seen by the other bucket. *)
Definition mirror (m : status_debt) : status_debt :=
  match m with
  | AllSquare => AllSquare
  | YouOwe l rs => OwesYou l rs
  | OwesYou l rs => YouOwe l rs
  end.

(** The debt line of a /status reply. *)
Definition debt_line (r : reply) : option status_debt :=
  match r with
  | StatusView _ _ m _ _ => Some m
  | _ => None
  end.

(** ** Concrete states and runs *)

(** Two registered users; Archit buys 20 L for 2000; Aditya, whose tank
    is empty, rides 40 km at 40 km/L and so borrows 1 L. *)
Definition borrowed_run : list command :=
  [ CmdRegister "u" (Some "Aditya"); CmdRegister "v" (Some "Archit");
    CmdFill "v" (Some (20, 2000));
    CmdRideStart "u" (Some 0); CmdRideEnd "u" (Some 40) ].

Definition borrowed_state : State := run borrowed_run new_state.

(** The same, with a new ride of Aditya started at 0 km. *)
Definition riding_state : State :=
  run (borrowed_run ++ [CmdRideStart "u" (Some 0)]) new_state.

(** A registered user with both tanks empty starts a ride at 0 km and
    ends it at 0.00000002 km. *)
Definition tiny_ride : list command :=
  [ CmdRegister "u" (Some "Aditya");
    CmdRideStart "u" (Some 0);
    CmdRideEnd "u" (Some (2 # 100000000)) ].


(** A state with a debt and no price: Aditya owes one liter. *)
Definition priceless_state : State :=
  {| users := {[ "u" := Aditya ]};
     tank := mkBalances 0 19;
     debt := mkBalances 1 0;
     ride_start := ∅;
     mileage := 40;
     last_price_per_liter := 0 |}.

(** After [tiny_ride], Archit registers and fills one liter for 100:
    Aditya owes [5e-10] liters and a price is set. *)
Definition tiny_debt_state : State :=
  run (tiny_ride ++ [ CmdRegister "v" (Some "Archit");
                      CmdFill "v" (Some (1, 100)) ]) new_state.

(** * Properties *)

(** ** Comparisons, [min] and the two-key dictionaries *)

Lemma Qltb_true (a b : Q) : Qltb a b = true <-> a < b.
Proof.
  unfold Qltb. rewrite Qlt_alt. destruct (a ?= b); split; congruence.
Qed.

Lemma Qltb_false (a b : Q) : Qltb a b = false <-> b <= a.
Proof.
  unfold Qltb. destruct (Qcompare_spec a b); split; intros; try lra; congruence.
Qed.

Lemma Qleb_true (a b : Q) : Qleb a b = true <-> a <= b.
Proof.
  unfold Qleb. destruct (Qcompare_spec a b); split; intros; try lra; congruence.
Qed.

Lemma Qleb_false (a b : Q) : Qleb a b = false <-> b < a.
Proof.
  unfold Qleb. destruct (Qcompare_spec a b); split; intros; try lra; congruence.
Qed.

(** Case analysis on the outcome of a comparison, keeping the order fact. *)
Lemma Qltb_cases (a b : Q) :
  (Qltb a b = true /\ a < b) \/ (Qltb a b = false /\ b <= a).
Proof.
  destruct (Qltb a b) eqn:E; [left | right]; split; trivial.
  - now apply Qltb_true.
  - now apply Qltb_false.
Qed.

Lemma Qleb_cases (a b : Q) :
  (Qleb a b = true /\ a <= b) \/ (Qleb a b = false /\ b < a).
Proof.
  destruct (Qleb a b) eqn:E; [left | right]; split; trivial.
  - now apply Qleb_true.
  - now apply Qleb_false.
Qed.

Ltac ltb_cases a b :=
  let E := fresh "E" in
  let H := fresh "H" in
  destruct (Qltb_cases a b) as [[E H] | [E H]]; rewrite ?E in *.

Ltac leb_cases a b :=
  let E := fresh "E" in
  let H := fresh "H" in
  destruct (Qleb_cases a b) as [[E H] | [E H]]; rewrite ?E in *.

Lemma pymin_Qmin (a b : Q) : pymin a b == Qmin a b.
Proof.
  unfold pymin. ltb_cases b a.
  - rewrite Q.min_r; lra.
  - rewrite Q.min_l; lra.
Qed.

Lemma pymin_le_l (a b : Q) : pymin a b <= a.
Proof. unfold pymin. ltb_cases b a; lra. Qed.

Lemma pymin_le_r (a b : Q) : pymin a b <= b.
Proof. unfold pymin. ltb_cases b a; lra. Qed.

Lemma pymin_glb (a b c : Q) : c <= a -> c <= b -> c <= pymin a b.
Proof. unfold pymin. ltb_cases b a; lra. Qed.

Lemma pymin_pos (a b : Q) : 0 < a -> 0 < b -> 0 < pymin a b.
Proof. unfold pymin. ltb_cases b a; lra. Qed.


Lemma get_set_same (d : balances) (b : bucket) (v : Q) : get (set d b v) b = v.
Proof. now destruct b. Qed.

Lemma get_set_other (d : balances) (b : bucket) (v : Q) :
  get (set d b v) (other_bucket b) = get d (other_bucket b).
Proof. now destruct b. Qed.

Lemma get_set_back (d : balances) (b : bucket) (v : Q) :
  get (set d (other_bucket b) v) b = get d b.
Proof. now destruct b. Qed.

Lemma Qdiv_pos (a b : Q) : 0 < a -> 0 < b -> 0 < a / b.
Proof. intros Ha Hb. apply Qlt_shift_div_l; lra. Qed.


Lemma EPS_pos : 0 < EPS.
Proof. reflexivity. Qed.

Lemma new_state_inv : ledger_inv new_state.
Proof.
  split; [intros [] | intros [] |]; simpl; unfold EPS, DEFAULT_MILEAGE; lra.
Qed.

Section Preservation.
Variable s : State.
Hypothesis Hinv : ledger_inv s.

Let Hd := inv_debt s Hinv.
Let Ht := inv_tank s Hinv.
Let Hm := inv_mileage s Hinv.

Ltac finish_inv :=
  pose proof EPS_pos;
  pose proof (Hd Aditya); pose proof (Hd Archit);
  pose proof (Ht Aditya); pose proof (Ht Archit); pose proof Hm;
  split; [intros [] | intros [] | ]; simpl in *; lra.

Lemma register_inv uid arg : ledger_inv (fst (register uid arg s)).
Proof.
  unfold register. destruct arg as [name|]; [|exact Hinv].
  destruct (parse_bucket _); [|exact Hinv]. finish_inv.
Qed.

Lemma set_mileage_inv uid arg : ledger_inv (fst (set_mileage uid arg s)).
Proof.
  unfold set_mileage. destruct (require_registered uid s); [|exact Hinv].
  destruct arg as [kmpl|]; [|exact Hinv].
  leb_cases kmpl 0; [exact Hinv|]. finish_inv.
Qed.

Lemma ride_start_inv uid arg : ledger_inv (fst (ride_start_cmd uid arg s)).
Proof.
  unfold ride_start_cmd. destruct (require_registered uid s); [|exact Hinv].
  destruct arg; [|exact Hinv]. finish_inv.
Qed.

Lemma ride_end_inv uid arg : ledger_inv (fst (ride_end uid arg s)).
Proof.
  unfold ride_end. destruct (require_registered uid s) as [b|]; [|exact Hinv].
  destruct (ride_start s !! uid) as [start_km|]; [|exact Hinv].
  destruct arg as [end_km|]; [|exact Hinv].
  cbv zeta.
  ltb_cases (end_km - start_km) 0; [finish_inv|].
  match goal with |- context [Qleb ?a ?b] => leb_cases a b end; [finish_inv|].
  match goal with |- context [Qltb ?a ?b] => ltb_cases a b end; [finish_inv|].
  match goal with |- context [Qleb ?a ?b] => leb_cases a b end.
  - destruct b; finish_inv.
  - destruct b; finish_inv.
Qed.

Lemma fill_inv uid args : ledger_inv (fst (fill uid args s)).
Proof.
  unfold fill. destruct (require_registered uid s) as [b|]; [|exact Hinv].
  destruct args as [[liters total_cost]|]; [|exact Hinv].
  leb_cases liters 0; [exact Hinv|].
  leb_cases total_cost 0; [exact Hinv|].
  cbv zeta. simpl orb. cbv iota.
  pose proof (pymin_le_l liters (get (debt s) b)).
  pose proof (pymin_le_r liters (get (debt s) b)).
  change (debt (with_price (total_cost / liters) s)) with (debt s).
  ltb_cases 0 (pymin liters (get (debt s) b)); destruct b; finish_inv.
Qed.

Lemma pay_inv uid arg : ledger_inv (fst (pay uid arg s)).
Proof.
  unfold pay. destruct (require_registered uid s) as [b|]; [|exact Hinv].
  destruct arg as [[|amount|]|]; try exact Hinv.
  - leb_cases (get (debt s) b) 0; [exact Hinv|]. destruct b; finish_inv.
  - leb_cases amount 0; [exact Hinv|].
    leb_cases (last_price_per_liter s) 0; [exact Hinv|].
    ltb_cases (get (debt s) b) EPS; [exact Hinv|].
    cbv zeta.
    pose proof (pymin_le_l (get (debt s) b) (amount / last_price_per_liter s)).
    assert (0 < pymin (get (debt s) b) (amount / last_price_per_liter s)).
    { apply pymin_pos; [pose proof EPS_pos; lra | now apply Qdiv_pos]. }
    destruct b; finish_inv.
Qed.

Lemma handle_inv c : ledger_inv (fst (handle c s)).
Proof.
  destruct c; simpl handle.
  - exact Hinv.
  - apply register_inv.
  - apply set_mileage_inv.
  - apply ride_start_inv.
  - apply ride_end_inv.
  - apply fill_inv.
  - unfold status. now destruct (require_registered uid s).
  - unfold settle. destruct (require_registered uid s); [|exact Hinv].
    now destruct (Qleb (last_price_per_liter s) 0).
  - apply pay_inv.
  - exact new_state_inv.
  - exact Hinv.
Qed.
End Preservation.

Lemma reachable_inv (s : State) : reachable s -> ledger_inv s.
Proof.
  induction 1 as [|s c _ IH]; [exact new_state_inv | now apply handle_inv].
Qed.

Lemma reachable_run (cs : list command) (s : State) :
  reachable s -> reachable (run cs s).
Proof.
  revert s. induction cs as [|c cs IH]; intros s Hs; [exact Hs|].
  apply IH. now constructor.
Qed.

Lemma borrowed_state_reachable : reachable borrowed_state.
Proof. apply reachable_run, reach_init. Qed.

Example borrowed_state_balances :
  get (tank borrowed_state) Aditya == 0 /\
  get (tank borrowed_state) Archit == 19 /\
  get (debt borrowed_state) Aditya == 1 /\
  get (debt borrowed_state) Archit == 0 /\
  last_price_per_liter borrowed_state == 100.
Proof. vm_compute. repeat split; reflexivity. Qed.

Lemma riding_state_reachable : reachable riding_state.
Proof. apply reachable_run, reach_init. Qed.

(** The first scenario of the specification: Aditya fills 10 L for
    1000, rides 400 km at 40 km/L, and then tries 40 km more. *)
Example scenario_fill_ride :
  let s1 := run [ CmdRegister "u" (Some "Aditya"); CmdRegister "v" (Some "Archit");
                  CmdFill "u" (Some (10, 1000)) ] new_state in
  let s2 := run [ CmdSetMileage "v" (Some 40); CmdRideStart "u" (Some 0);
                  CmdRideEnd "u" (Some 400) ] s1 in
  let s3 := run [ CmdRideStart "u" (Some 400) ] s2 in
  last_price_per_liter s1 == 100 /\ get (tank s1) Aditya == 10 /\
  get (tank s2) Aditya == 0 /\ get (debt s2) Aditya == 0 /\
  rejection (snd (handle (CmdRideEnd "u" (Some 440)) s3)) = true /\
  fst (handle (CmdRideEnd "u" (Some 440)) s3) = s3.
Proof.
  cbv zeta. repeat split; vm_compute; reflexivity.
Qed.

(** ** C1: how the total in the tanks changes *)

(** The liters a successful /pay clears are added to the other
    bucket's tank and taken from nobody's: the total in the tanks grows
    although no fill happened. *)
Lemma pay_full_raises_total_tank :
  reachable borrowed_state /\
  snd (handle (CmdPay "u" (Some Full)) borrowed_state) = PaidFull (40 # 40) /\
  total_tank borrowed_state == 19 /\
  total_tank (fst (handle (CmdPay "u" (Some Full)) borrowed_state)) == 20 /\
  total_tank borrowed_state
    < total_tank (fst (handle (CmdPay "u" (Some Full)) borrowed_state)).
Proof.
  split; [exact borrowed_state_reachable|].
  vm_compute. repeat split; reflexivity.
Qed.

Lemma fill_tank_effect (s : State) (uid : string) (args : option (Q * Q)) :
  (forall b, 0 <= get (debt s) b) ->
  tank_effect (CmdFill uid args) (snd (fill uid args s)) s (fst (fill uid args s)).
Proof.
  intros Hd. unfold fill, require_registered, user_bucket.
  destruct (users s !! uid) as [b|] eqn:Hu;
    [|destruct args as [[]|]; exact eq_refl].
  destruct args as [[liters total_cost]|]; [|exact eq_refl].
  leb_cases liters 0; [exact eq_refl|].
  leb_cases total_cost 0; [exact eq_refl|].
  cbv zeta. simpl orb. cbv iota.
  change (debt (with_price (total_cost / liters) s)) with (debt s).
  pose proof (pymin_glb liters (get (debt s) b) 0 ltac:(lra) (Hd b)).
  exists b. split; [exact Hu|]. split; [exact eq_refl|].
  split; [exact eq_refl|]. split; [exact eq_refl|].
  ltb_cases 0 (pymin liters (get (debt s) b)).
  - split; [destruct b; reflexivity|]. left. split; [trivial|].
    destruct b; reflexivity.
  - split; [destruct b; reflexivity|]. right. split; [lra|].
    destruct b; reflexivity.
Qed.

Lemma ride_end_tank_effect (s : State) (uid : string) (arg : option Q) :
  tank_effect (CmdRideEnd uid arg) (snd (ride_end uid arg s))
    s (fst (ride_end uid arg s)).
Proof.
  unfold ride_end, require_registered, user_bucket.
  destruct (users s !! uid) as [b|] eqn:Hu; [|exact eq_refl].
  destruct (ride_start s !! uid) as [start_km|]; [|exact eq_refl].
  destruct arg as [end_km|]; [|exact eq_refl].
  cbv zeta.
  ltb_cases (end_km - start_km) 0; [exact eq_refl|].
  match goal with |- context [Qleb ?a ?b] => leb_cases a b end; [exact eq_refl|].
  match goal with |- context [Qltb ?a ?b] => ltb_cases a b end; [exact eq_refl|].
  match goal with |- context [Qleb ?a ?b] => leb_cases a b end.
  - exists b. split; [exact Hu|]. split; [exact eq_refl|]. left.
    split; [assumption|]. destruct b; repeat split; reflexivity.
  - exists b. split; [exact Hu|]. split; [exact eq_refl|]. right.
    split; [assumption|]. destruct b; repeat split; reflexivity.
Qed.

Lemma pay_tank_effect (s : State) (uid : string) (arg : option pay_arg) :
  tank_effect (CmdPay uid arg) (snd (pay uid arg s)) s (fst (pay uid arg s)).
Proof.
  unfold pay, require_registered, user_bucket.
  destruct arg as [[|amount|]|];
    (destruct (users s !! uid) as [b|] eqn:Hu; [|exact eq_refl]);
    try exact eq_refl.
  - destruct (Qleb (get (debt s) b) 0); [exact eq_refl|].
    exists b. split; [exact Hu|]. destruct b; repeat split; reflexivity.
  - destruct (Qleb amount 0); [exact eq_refl|].
    destruct (Qleb (last_price_per_liter s) 0); [exact eq_refl|].
    destruct (Qltb (get (debt s) b) EPS); [exact eq_refl|].
    exists b. split; [exact Hu|]. destruct b; repeat split; reflexivity.
Qed.

(** C1 (as amended).  In every reachable state the tanks change as
    follows, each new tank value being the expression the handler
    stores.  A successful fill adds [liters - clear_l] to the filler's
    tank and [clear_l = min liters debt] to the other tank (nothing
    when [clear_l] is zero).  A successful ride end takes the used
    liters out of the rider's tank when it covers them, and otherwise
    sets the rider's tank to zero and takes the shortfall
    [used_l - tank[me]] out of the other tank.  A successful payment,
    full or by amount, adds the cleared liters to the other bucket's
    tank and takes them out of no tank.  A reset sets both tanks to
    zero.  Every other command and every refused command leaves both
    tanks as they were. *)
Theorem tank_flow (s : State) (c : command) :
  reachable s ->
  tank_effect c (snd (handle c s)) s (fst (handle c s)).
Proof.
  intros Hs. pose proof (inv_debt s (reachable_inv s Hs)) as Hd.
  destruct c; simpl handle.
  - exact eq_refl.
  - unfold register. destruct arg as [name|]; [|exact eq_refl].
    cbv zeta. destruct (parse_bucket _); exact eq_refl.
  - unfold set_mileage. destruct (require_registered uid s); [|exact eq_refl].
    destruct arg as [kmpl|]; [|exact eq_refl].
    destruct (Qleb kmpl 0); exact eq_refl.
  - unfold ride_start_cmd. destruct (require_registered uid s); [|exact eq_refl].
    destruct arg; exact eq_refl.
  - apply ride_end_tank_effect.
  - now apply fill_tank_effect.
  - unfold status. destruct (require_registered uid s); exact eq_refl.
  - unfold settle. destruct (require_registered uid s); [|exact eq_refl].
    destruct (Qleb (last_price_per_liter s) 0); exact eq_refl.
  - apply pay_tank_effect.
  - exact eq_refl.
  - exact eq_refl.
Qed.

Lemma tank_flow_witness :
  tank_effect (CmdPay "u" (Some Full))
    (snd (handle (CmdPay "u" (Some Full)) borrowed_state))
    borrowed_state
    (fst (handle (CmdPay "u" (Some Full)) borrowed_state)).
Proof.
  apply (tank_flow borrowed_state (CmdPay "u" (Some Full))).
  exact borrowed_state_reachable.
Defined.

(** ** C2: the sign of the balances *)

(** C2.  All four balances are non-negative in every reachable state:
    this fails on the code.  The fuel check of [ride_end] accepts a ride
    that needs up to [1e-9] liters more than the two tanks hold, and the
    borrowing branch then takes the whole shortfall out of the other
    tank.  After [tiny_ride], run from the initial state, the ride was
    accepted (the pending start is consumed) and Archit's tank holds
    [-5e-10] liters. *)
Theorem tiny_ride_negative_tank :
  reachable (run tiny_ride new_state) /\
  ride_start (run tiny_ride new_state) !! "u" = None /\
  get (tank (run tiny_ride new_state)) Archit == - (5 # 10000000000) /\
  get (tank (run tiny_ride new_state)) Archit < 0.
Proof.
  split; [apply reachable_run, reach_init|].
  vm_compute. repeat split; reflexivity.
Qed.

(** ** C3: refusals and the state *)


(** The mileage refusal is the only one that touches the state. *)
Lemma rejection_keeps_state (s : State) (c : command) :
  rejection (snd (handle c s)) = true ->
  snd (handle c s) <> NoMileage ->
  fst (handle c s) = s.
Proof.
  destruct s as [us tk db rs mi pr].
  destruct c; simpl handle.
  - discriminate.
  - unfold register. destruct arg as [name|]; [|reflexivity].
    destruct (parse_bucket _); [discriminate|reflexivity].
  - unfold set_mileage. destruct (require_registered _ _); [|reflexivity].
    destruct arg as [kmpl|]; [|reflexivity].
    destruct (Qleb kmpl 0); [reflexivity|discriminate].
  - unfold ride_start_cmd. destruct (require_registered _ _); [|reflexivity].
    destruct arg; [discriminate|reflexivity].
  - unfold ride_end. destruct (require_registered _ _) as [b|]; [|reflexivity].
    destruct (ride_start _ !! uid) as [start_km|] eqn:Hstart; [|reflexivity].
    destruct arg as [end_km|]; [|reflexivity].
    cbv zeta. simpl in Hstart.
    assert (Hback : <[uid := start_km]> (delete uid rs) = rs).
    { rewrite insert_delete_eq. now apply insert_id. }
    destruct (Qltb (end_km - start_km) 0).
    { intros _ _. simpl. unfold with_ride_start. simpl. now rewrite Hback. }
    match goal with |- context [Qleb ?a ?b] => destruct (Qleb a b) end;
      [intros _ H; now elim H|].
    match goal with |- context [Qltb ?a ?b] => destruct (Qltb a b) end.
    { intros _ _. simpl. unfold with_ride_start. simpl. now rewrite Hback. }
    match goal with |- context [Qleb ?a ?b] => destruct (Qleb a b) end;
      discriminate.
  - unfold fill. destruct (require_registered _ _); [|reflexivity].
    destruct args as [[liters total_cost]|]; [|reflexivity].
    destruct (Qleb liters 0 || Qleb total_cost 0); [reflexivity|discriminate].
  - unfold status. destruct (require_registered _ _); [discriminate|reflexivity].
  - unfold settle. destruct (require_registered _ _); [|reflexivity].
    match goal with |- context [Qleb ?a ?b] => destruct (Qleb a b) end;
      [reflexivity|discriminate].
  - unfold pay. destruct (require_registered _ _); [|reflexivity].
    destruct arg as [[|amount|]|]; try reflexivity.
    + match goal with |- context [Qleb ?a ?b] => destruct (Qleb a b) end;
        [reflexivity|discriminate].
    + destruct (Qleb amount 0); [reflexivity|].
      match goal with |- context [Qleb ?a ?b] => destruct (Qleb a b) end;
        [reflexivity|].
      match goal with |- context [Qltb ?a ?b] => destruct (Qltb a b) end;
        [reflexivity|discriminate].
  - discriminate.
  - reflexivity.
Qed.

(** The mileage refusal needs a mileage that is not positive, which no
    reachable state has: there, every refusal leaves the state alone. *)
Lemma no_mileage_only_without_mileage (s : State) (c : command) :
  snd (handle c s) = NoMileage -> mileage s <= 0.
Proof.
  destruct c; simpl handle; try discriminate.
  - unfold register. destruct arg as [name|]; [|discriminate].
    destruct (parse_bucket _); discriminate.
  - unfold set_mileage. destruct (require_registered _ _); [|discriminate].
    destruct arg as [kmpl|]; [|discriminate].
    destruct (Qleb kmpl 0); discriminate.
  - unfold ride_start_cmd. destruct (require_registered _ _); [|discriminate].
    destruct arg; discriminate.
  - unfold ride_end. destruct (require_registered _ _); [|discriminate].
    destruct (ride_start _ !! uid); [|discriminate].
    destruct arg as [end_km|]; [|discriminate].
    cbv zeta. destruct (Qltb _ 0); [discriminate|].
    change (mileage (with_ride_start (delete uid (ride_start s)) s))
      with (mileage s).
    leb_cases (mileage s) 0; [trivial|].
    match goal with |- context [Qltb ?a ?b] => destruct (Qltb a b) end;
      [discriminate|].
    match goal with |- context [Qleb ?a ?b] => destruct (Qleb a b) end;
      discriminate.
  - unfold fill. destruct (require_registered _ _); [|discriminate].
    destruct args as [[liters total_cost]|]; [|discriminate].
    destruct (Qleb liters 0 || Qleb total_cost 0); discriminate.
  - unfold status. destruct (require_registered _ _); discriminate.
  - unfold settle. destruct (require_registered _ _); [|discriminate].
    destruct (Qleb _ 0); discriminate.
  - unfold pay. destruct (require_registered _ _); [|discriminate].
    destruct arg as [[|amount|]|]; try discriminate.
    + destruct (Qleb _ 0); discriminate.
    + destruct (Qleb amount 0); [discriminate|].
      destruct (Qleb _ 0); [discriminate|].
      destruct (Qltb _ EPS); discriminate.
Qed.

Lemma reachable_rejection_keeps_state (s : State) (c : command) :
  reachable s ->
  rejection (snd (handle c s)) = true ->
  fst (handle c s) = s.
Proof.
  intros Hs Hrej. apply rejection_keeps_state; [exact Hrej|].
  intros Hno. apply no_mileage_only_without_mileage in Hno.
  pose proof (inv_mileage s (reachable_inv s Hs)). lra.
Qed.

(** ** C4: an accepted ride end *)

Section RideEnd.
Variables (s : State) (uid : string) (me : bucket) (start_km end_km : Q).
Hypothesis Hreg : users s !! uid = Some me.
Hypothesis Hpending : ride_start s !! uid = Some start_km.

Let other := other_bucket me.
Let distance := end_km - start_km.
Let used_l := distance / mileage s.
Let available_total := get (tank s) me + get (tank s) other.

(** The end reading is below the start reading. *)
Lemma ride_end_negative_distance :
  end_km < start_km ->
  ride_end uid (Some end_km) s = (s, NegativeDistance).
Proof.
  intros Hlt. unfold ride_end, require_registered, user_bucket.
  rewrite Hreg, Hpending. cbv zeta.
  ltb_cases (end_km - start_km) 0; [|lra].
  f_equal. destruct s; unfold with_ride_start; simpl in *.
  f_equal. rewrite insert_delete_eq. now apply insert_id.
Qed.

(** The ride needs more than both tanks hold, beyond the tolerance. *)
Lemma ride_end_insufficient_fuel :
  start_km <= end_km -> 0 < mileage s ->
  available_total + EPS < used_l ->
  ride_end uid (Some end_km) s = (s, InsufficientFuel used_l available_total).
Proof.
  intros Hle Hm Hfuel. unfold ride_end, require_registered, user_bucket.
  rewrite Hreg, Hpending. cbv zeta.
  ltb_cases (end_km - start_km) 0; [lra|].
  change (mileage (with_ride_start (delete uid (ride_start s)) s))
    with (mileage s).
  change (tank (with_ride_start (delete uid (ride_start s)) s))
    with (tank s).
  leb_cases (mileage s) 0; [lra|].
  fold distance used_l other available_total.
  ltb_cases (available_total + EPS) used_l; [|lra].
  f_equal. destruct s; unfold with_ride_start; simpl in *.
  f_equal. rewrite insert_delete_eq. now apply insert_id.
Qed.

Lemma ride_end_accepted :
  start_km <= end_km -> 0 < mileage s ->
  used_l <= available_total + EPS ->
  ride_end uid (Some end_km) s =
    if Qleb used_l (get (tank s) me)
    then (after_own_fuel s uid me used_l, RideEnded distance used_l 0 other)
    else (after_borrowing s uid me used_l,
          RideEnded distance used_l (used_l - get (tank s) me) other).
Proof.
  intros Hle Hm Hfuel. unfold ride_end, require_registered, user_bucket.
  rewrite Hreg, Hpending. cbv zeta.
  ltb_cases (end_km - start_km) 0; [lra|].
  change (mileage (with_ride_start (delete uid (ride_start s)) s))
    with (mileage s).
  change (tank (with_ride_start (delete uid (ride_start s)) s))
    with (tank s).
  leb_cases (mileage s) 0; [lra|].
  fold distance used_l other available_total.
  ltb_cases (available_total + EPS) used_l; [lra|].
  destruct (Qleb used_l (get (tank s) me)); [reflexivity|].
  f_equal. unfold after_borrowing, with_debt, with_tank. simpl.
  f_equal. now rewrite get_set_other.
Qed.
End RideEnd.

(** C4.  For a registered rider with a pending start, an end reading
    not below it, a positive mileage and used liters within the fuel
    check, the ride end is accepted and consumes the pending start.  If
    the rider's tank holds at least the used liters, that tank goes
    down by exactly the used liters and the other tank and both debts
    keep their values.  Otherwise the rider's tank is set to exactly
    zero, the other tank goes down by exactly the shortfall
    [used_l - tank[me]], the rider's debt goes up by exactly
    [max 0 (used_l - tank[me])] and the other debt keeps its value. *)
Theorem ride_end_balances
  (s : State) (uid : string) (me : bucket) (start_km end_km : Q) :
  users s !! uid = Some me ->
  ride_start s !! uid = Some start_km ->
  start_km <= end_km -> 0 < mileage s ->
  let other := other_bucket me in
  let used_l := (end_km - start_km) / mileage s in
  let borrowed := used_l - get (tank s) me in
  used_l <= get (tank s) me + get (tank s) other + EPS ->
  let s' := fst (ride_end uid (Some end_km) s) in
  rejection (snd (ride_end uid (Some end_km) s)) = false /\
  ride_start s' !! uid = None /\
  get (debt s') other = get (debt s) other /\
  get (debt s') me == get (debt s) me + Qmax 0 borrowed /\
  (used_l <= get (tank s) me ->
     get (tank s') me = get (tank s) me - used_l /\
     get (tank s') other = get (tank s) other /\
     debt s' = debt s) /\
  (get (tank s) me < used_l ->
     get (tank s') me = 0 /\
     get (tank s') other = get (tank s) other - borrowed /\
     get (debt s') me = get (debt s) me + borrowed).
Proof.
  intros Hreg Hpending Hle Hm other used_l borrowed Hfuel s'.
  subst s'. rewrite (ride_end_accepted s uid me start_km end_km); trivial.
  unfold after_own_fuel, after_borrowing. fold other used_l.
  subst borrowed. clearbody used_l.
  leb_cases used_l (get (tank s) me); simpl fst; simpl snd.
  - split; [reflexivity|]. split; [apply lookup_delete_eq|].
    split; [reflexivity|]. split.
    { simpl. rewrite Q.max_l; lra. }
    split; [|intros; lra]. intros _. simpl.
    rewrite get_set_same. unfold other. rewrite get_set_other. auto.
  - split; [reflexivity|]. split; [apply lookup_delete_eq|].
    split; [simpl; unfold other; apply get_set_other|]. split.
    { simpl. rewrite get_set_same. rewrite Q.max_r; lra. }
    split; [intros; lra|]. intros _. simpl.
    unfold other. rewrite get_set_back, !get_set_same. auto.
Qed.

Lemma ride_end_balances_witness :
  get (tank (fst (ride_end "u" (Some 80) riding_state))) Aditya = 0 /\
  get (tank (fst (ride_end "u" (Some 80) riding_state))) Archit
    = get (tank riding_state) Archit
      - ((80 - 0) / mileage riding_state - get (tank riding_state) Aditya) /\
  get (debt (fst (ride_end "u" (Some 80) riding_state))) Aditya
    = get (debt riding_state) Aditya
      + ((80 - 0) / mileage riding_state - get (tank riding_state) Aditya).
Proof.
  destruct (ride_end_balances riding_state "u" Aditya 0 80)
    as (_ & _ & _ & _ & _ & Hborrow).
  - vm_compute; reflexivity.
  - vm_compute; reflexivity.
  - vm_compute; discriminate.
  - vm_compute; reflexivity.
  - vm_compute; discriminate.
  - apply Hborrow. vm_compute; reflexivity.
Defined.

(** ** C5: /fill *)

Lemma fill_rejected (s : State) (uid : string) (b : bucket) (liters total_cost : Q) :
  users s !! uid = Some b ->
  liters <= 0 \/ total_cost <= 0 ->
  fill uid (Some (liters, total_cost)) s = (s, Usage).
Proof.
  intros Hreg Hbad. unfold fill, require_registered, user_bucket. rewrite Hreg.
  leb_cases liters 0; [reflexivity|].
  leb_cases total_cost 0; [reflexivity|]. lra.
Qed.

Lemma fill_accepted (s : State) (uid : string) (b : bucket) (liters total_cost : Q) :
  users s !! uid = Some b ->
  0 < liters -> 0 < total_cost ->
  0 <= get (debt s) b ->
  let other := other_bucket b in
  let clear_l := pymin liters (get (debt s) b) in
  let s' := fst (fill uid (Some (liters, total_cost)) s) in
  snd (fill uid (Some (liters, total_cost)) s)
    = FillRecorded clear_l (liters - clear_l) (total_cost / liters) other /\
  last_price_per_liter s' = total_cost / liters /\
  get (debt s') b == get (debt s) b - clear_l /\
  get (debt s') other = get (debt s) other /\
  get (tank s') other == get (tank s) other + clear_l /\
  get (tank s') b == get (tank s) b + (liters - clear_l) /\
  users s' = users s /\ ride_start s' = ride_start s /\ mileage s' = mileage s.
Proof.
  intros Hreg Hl Hc Hd other clear_l s'. subst s'.
  unfold fill, require_registered, user_bucket. rewrite Hreg.
  leb_cases liters 0; [lra|]. leb_cases total_cost 0; [lra|].
  cbv zeta. simpl orb. cbv iota.
  change (debt (with_price (total_cost / liters) s)) with (debt s).
  fold clear_l other.
  assert (0 <= clear_l) by (now apply pymin_glb; [lra|]).
  clearbody clear_l.
  subst other.
  ltb_cases 0 clear_l; destruct b; simpl; repeat split; try reflexivity; lra.
Qed.

(** C5.  In a reachable state, a registered caller's fill with
    [liters > 0] and [total_cost > 0] succeeds: the last price becomes
    [total_cost / liters], [clear_l = min liters debt[bucket]] is taken
    off the caller's debt and added to the other bucket's tank, and
    [liters - clear_l] is added to the caller's tank; nothing else
    changes.  With [liters <= 0] or [total_cost <= 0] the fill is
    refused with the usage reply and the state is unchanged. *)
Theorem fill_spec (s : State) (uid : string) (b : bucket) (liters total_cost : Q) :
  reachable s ->
  users s !! uid = Some b ->
  let other := other_bucket b in
  let clear_l := Qmin liters (get (debt s) b) in
  let s' := fst (fill uid (Some (liters, total_cost)) s) in
  (0 < liters -> 0 < total_cost ->
     rejection (snd (fill uid (Some (liters, total_cost)) s)) = false /\
     last_price_per_liter s' = total_cost / liters /\
     get (debt s') b == get (debt s) b - clear_l /\
     get (debt s') other = get (debt s) other /\
     get (tank s') other == get (tank s) other + clear_l /\
     get (tank s') b == get (tank s) b + (liters - clear_l) /\
     users s' = users s /\ ride_start s' = ride_start s /\
     mileage s' = mileage s) /\
  (liters <= 0 \/ total_cost <= 0 ->
     fill uid (Some (liters, total_cost)) s = (s, Usage)).
Proof.
  intros Hs Hreg other clear_l s'. split.
  - intros Hl Hc.
    pose proof (inv_debt s (reachable_inv s Hs) b) as Hd.
    destruct (fill_accepted s uid b liters total_cost Hreg Hl Hc Hd)
      as (Hr & Hp & Hdb & Hdo & Hto & Htb & Hrest).
    fold s' other in Hp, Hdb, Hdo, Hto, Htb, Hrest.
    rewrite Hr. subst clear_l. rewrite <- !pymin_Qmin. auto 10.
  - now apply fill_rejected with (b := b).
Qed.

Lemma fill_spec_witness :
  fill "u" (Some (0, 300)) borrowed_state = (borrowed_state, Usage) /\
  get (debt (fst (fill "u" (Some (3, 300)) borrowed_state))) Aditya
    == get (debt borrowed_state) Aditya - Qmin 3 (get (debt borrowed_state) Aditya).
Proof.
  destruct (fill_spec borrowed_state "u" Aditya 0 300) as [_ Hrej].
  - exact borrowed_state_reachable.
  - vm_compute; reflexivity.
  - destruct (fill_spec borrowed_state "u" Aditya 3 300) as [Hacc _].
    + exact borrowed_state_reachable.
    + vm_compute; reflexivity.
    + split.
      * apply Hrej. left. vm_compute; discriminate.
      * apply Hacc; vm_compute; reflexivity.
Defined.

(** ** C6: /pay with an amount *)

(** C6.  For a registered caller, an amount above zero, a last price
    above zero and a debt above the tolerance, the payment is accepted
    and clears exactly [min debt[bucket] (amount / price)] liters: they
    are taken off the caller's debt and added to the other bucket's
    tank, nothing else changes, and the debt left is not negative,
    however large the amount. *)
Theorem pay_amount_spec (s : State) (uid : string) (b : bucket) (amount : Q) :
  users s !! uid = Some b ->
  0 < amount -> 0 < last_price_per_liter s -> EPS < get (debt s) b ->
  let other := other_bucket b in
  let cleared := Qmin (get (debt s) b) (amount / last_price_per_liter s) in
  let s' := fst (pay uid (Some (Amount amount)) s) in
  (exists actual_cleared_l remaining_debt,
     snd (pay uid (Some (Amount amount)) s)
       = Paid amount actual_cleared_l remaining_debt /\
     actual_cleared_l == cleared /\ remaining_debt == get (debt s') b) /\
  get (debt s') b == get (debt s) b - cleared /\
  get (tank s') other == get (tank s) other + cleared /\
  0 <= get (debt s') b /\
  get (debt s') other = get (debt s) other /\
  get (tank s') b = get (tank s) b /\
  users s' = users s /\ ride_start s' = ride_start s /\
  mileage s' = mileage s /\ last_price_per_liter s' = last_price_per_liter s.
Proof.
  intros Hreg Ha Hp Hd other cleared s'. subst s' other.
  pose proof (pymin_Qmin (get (debt s) b) (amount / last_price_per_liter s))
    as Hmin.
  pose proof (pymin_le_l (get (debt s) b) (amount / last_price_per_liter s))
    as Hcap.
  fold cleared in Hmin. clearbody cleared.
  unfold pay, require_registered, user_bucket. rewrite Hreg.
  leb_cases amount 0; [lra|].
  leb_cases (last_price_per_liter s) 0; [lra|].
  ltb_cases (get (debt s) b) EPS; [lra|].
  cbv zeta.
  set (c := pymin (get (debt s) b) (amount / last_price_per_liter s)) in *.
  clearbody c.
  split; [eexists _, _; split; [reflexivity|split; [exact Hmin|reflexivity]]|].
  destruct b; simpl in *; repeat split; try reflexivity; lra.
Qed.

Lemma pay_amount_spec_witness :
  0 <= get (debt (fst (pay "u" (Some (Amount 50000)) borrowed_state))) Aditya.
Proof.
  destruct (pay_amount_spec borrowed_state "u" Aditya 50000)
    as (_ & _ & _ & Hnonneg & _).
  - vm_compute; reflexivity.
  - vm_compute; reflexivity.
  - vm_compute; reflexivity.
  - vm_compute; reflexivity.
  - exact Hnonneg.
Defined.

(** ** C7: the two refusals of /ride_end that put the start back *)

(** C7.  For a registered rider with a pending start: an end reading
    below the start is refused as a negative distance, and a ride that
    needs more liters than both tanks hold plus the tolerance is
    refused for insufficient fuel, reporting the liters needed and the
    liters available.  Either way the popped start is put back with its
    old value, the state after the refusal is the state before the
    command, and so the start is still pending for a retry. *)
Theorem ride_end_retryable
  (s : State) (uid : string) (me : bucket) (start_km end_km : Q) :
  users s !! uid = Some me ->
  ride_start s !! uid = Some start_km ->
  let used_l := (end_km - start_km) / mileage s in
  let available_total := get (tank s) me + get (tank s) (other_bucket me) in
  end_km < start_km \/
  (start_km <= end_km /\ 0 < mileage s /\ available_total + EPS < used_l) ->
  let r := snd (ride_end uid (Some end_km) s) in
  let s' := fst (ride_end uid (Some end_km) s) in
  (end_km < start_km -> r = NegativeDistance) /\
  (start_km <= end_km -> r = InsufficientFuel used_l available_total) /\
  s' = s /\
  ride_start s' !! uid = Some start_km.
Proof.
  intros Hreg Hpending used_l available_total Hcase r s'. subst r s'.
  destruct Hcase as [Hneg | (Hle & Hm & Hfuel)].
  - rewrite (ride_end_negative_distance s uid me start_km end_km); trivial.
    simpl. repeat split; trivial. intros; lra.
  - rewrite (ride_end_insufficient_fuel s uid me start_km end_km); trivial.
    simpl. repeat split; trivial. intros; lra.
Qed.

Lemma ride_end_retryable_witness :
  fst (ride_end "u" (Some 4000) riding_state) = riding_state /\
  snd (ride_end "u" (Some (-1)) riding_state) = NegativeDistance.
Proof.
  split.
  - destruct (ride_end_retryable riding_state "u" Aditya 0 4000)
      as (_ & _ & Hsame & _).
    + vm_compute; reflexivity.
    + vm_compute; reflexivity.
    + right. repeat split; vm_compute; (reflexivity || discriminate).
    + exact Hsame.
  - destruct (ride_end_retryable riding_state "u" Aditya 0 (-1))
      as (Hneg & _).
    + vm_compute; reflexivity.
    + vm_compute; reflexivity.
    + left. vm_compute; reflexivity.
    + apply Hneg. vm_compute; reflexivity.
Defined.

(** ** C8: /settle *)

(** C8.  For a registered caller, /settle is refused for a missing
    price exactly when the last price is not above zero; otherwise it
    reports the caller's debt in liters and that debt times the last
    price.  In both cases the state is unchanged. *)
Theorem settle_spec (s : State) (uid : string) (b : bucket) :
  users s !! uid = Some b ->
  (snd (settle uid s) = NoPriceSet <-> last_price_per_liter s <= 0) /\
  (0 < last_price_per_liter s ->
     snd (settle uid s)
       = SettleInfo (get (debt s) b) (last_price_per_liter s)
           (get (debt s) b * last_price_per_liter s)) /\
  fst (settle uid s) = s.
Proof.
  intros Hreg. unfold settle, require_registered, user_bucket. rewrite Hreg.
  leb_cases (last_price_per_liter s) 0; simpl.
  - repeat split; trivial. intros; lra.
  - repeat split; trivial; try discriminate. intros; lra.
Qed.

Lemma settle_spec_witness :
  snd (settle "u" borrowed_state)
    = SettleInfo (get (debt borrowed_state) Aditya)
        (last_price_per_liter borrowed_state)
        (get (debt borrowed_state) Aditya * last_price_per_liter borrowed_state) /\
  fst (settle "u" borrowed_state) = borrowed_state.
Proof.
  destruct (settle_spec borrowed_state "u" Aditya) as (_ & Hinfo & Hsame).
  - vm_compute; reflexivity.
  - split; [apply Hinfo; vm_compute; reflexivity | exact Hsame].
Defined.

(** ** C9: /pay full *)

(** C9.  For a registered caller, /pay full never asks for a price.
    With a debt above zero, whatever the last price is, it succeeds,
    sets the caller's debt to exactly zero and adds the whole cleared
    debt to the other bucket's tank, changing nothing else.  It is
    refused for lack of debt exactly when the debt is not above zero,
    and then the state is unchanged. *)
Theorem pay_full_spec (s : State) (uid : string) (b : bucket) :
  users s !! uid = Some b ->
  let other := other_bucket b in
  let r := snd (pay uid (Some Full) s) in
  let s' := fst (pay uid (Some Full) s) in
  r <> NoPriceSet /\
  (r = NoDebt <-> get (debt s) b <= 0) /\
  (get (debt s) b <= 0 -> s' = s) /\
  (0 < get (debt s) b ->
     r = PaidFull (get (debt s) b) /\
     get (debt s') b = 0 /\
     get (tank s') other = get (tank s) other + get (debt s) b /\
     get (debt s') other = get (debt s) other /\
     get (tank s') b = get (tank s) b /\
     users s' = users s /\ ride_start s' = ride_start s /\
     mileage s' = mileage s /\
     last_price_per_liter s' = last_price_per_liter s).
Proof.
  intros Hreg other r s'. subst other r s'.
  unfold pay, require_registered, user_bucket. rewrite Hreg.
  leb_cases (get (debt s) b) 0; simpl.
  - split; [discriminate|]. split; [split; trivial|].
    split; [trivial|intros; lra].
  - split; [discriminate|]. split; [split; [discriminate|intros; lra]|].
    split; [intros; lra|]. intros _.
    destruct b; simpl; repeat split; reflexivity.
Qed.

Lemma pay_full_spec_witness :
  last_price_per_liter priceless_state = 0 /\
  snd (pay "u" (Some Full) priceless_state) = PaidFull 1 /\
  get (debt (fst (pay "u" (Some Full) priceless_state))) Aditya = 0 /\
  get (tank (fst (pay "u" (Some Full) priceless_state))) Archit = 19 + 1.
Proof.
  destruct (pay_full_spec priceless_state "u" Aditya) as (_ & _ & _ & Hpaid).
  - vm_compute; reflexivity.
  - destruct Hpaid as (Hr & Hd & Ht & _); [vm_compute; reflexivity|].
    split; [reflexivity|]. split; [exact Hr|]. split; [exact Hd | exact Ht].
Defined.

(** ** C10: /ride_start *)

(** C10.  For a registered caller and any odometer value, zero and
    negative ones included, /ride_start succeeds and makes that value
    the caller's pending start, over any earlier one; the pending
    starts of other users and every other field of the state stay as
    they were. *)
Theorem ride_start_spec (s : State) (uid : string) (b : bucket) (start_km : Q) :
  users s !! uid = Some b ->
  let s' := fst (ride_start_cmd uid (Some start_km) s) in
  snd (ride_start_cmd uid (Some start_km) s) = RideStarted start_km /\
  ride_start s' !! uid = Some start_km /\
  (forall uid', uid' <> uid -> ride_start s' !! uid' = ride_start s !! uid') /\
  users s' = users s /\ tank s' = tank s /\ debt s' = debt s /\
  mileage s' = mileage s /\
  last_price_per_liter s' = last_price_per_liter s.
Proof.
  intros Hreg s'. subst s'.
  unfold ride_start_cmd, require_registered, user_bucket. rewrite Hreg. simpl.
  split; [reflexivity|]. split; [apply lookup_insert_eq|].
  split; [|repeat split; reflexivity].
  intros uid' Hne. now apply lookup_insert_ne.
Qed.

Lemma ride_start_spec_witness :
  ride_start (fst (ride_start_cmd "u" (Some (-7)) riding_state)) !! "u"
    = Some (-7) /\
  ride_start riding_state !! "u" = Some 0.
Proof.
  destruct (ride_start_spec riding_state "u" Aditya (-7)) as (_ & Hset & _).
  - vm_compute; reflexivity.
  - split; [exact Hset | vm_compute; reflexivity].
Defined.


(** * Further properties of the handlers *)

(** Case analysis along the tests of a handler, when the order facts of
    the comparisons are not needed. *)
Ltac handler_cases :=
  repeat (cbv zeta;
    match goal with
    | |- context [match ?o with Some _ => _ | None => _ end] =>
        destruct o eqn:?
    | |- context [match ?a with Full => _ | Amount _ => _ | NotANumber => _ end] =>
        destruct a
    | |- context [let (_, _) := ?p in _] => destruct p
    | |- context [if ?t then _ else _] => destruct t eqn:?
    end).

Ltac unfold_handlers :=
  unfold start, register, set_mileage, ride_start_cmd, ride_end, fill, status,
    settle, pay, reset, unknown, require_registered, user_bucket.

(** ** Refusals *)

(** X2.  In every reachable state, a command that is answered with a
    refusal (not registered, usage, invalid bucket or amount, no ride
    started, negative distance, insufficient fuel, no price, no debt,
    unknown command) leaves the whole state exactly as it was. *)
Theorem refusal_changes_nothing (s : State) (c : command) :
  reachable s ->
  rejection (snd (handle c s)) = true ->
  fst (handle c s) = s.
Proof.
  intros Hs Hrej. now apply reachable_rejection_keeps_state.
Qed.

Lemma refusal_changes_nothing_witness :
  fst (handle (CmdRideEnd "u" (Some 4000)) riding_state) = riding_state.
Proof.
  apply (refusal_changes_nothing riding_state (CmdRideEnd "u" (Some 4000))).
  - exact riding_state_reachable.
  - vm_compute; reflexivity.
Defined.

Lemma not_registered_reply (s : State) (c : command) (uid : string) :
  caller c = Some uid ->
  needs_registration c = true ->
  users s !! uid = None ->
  handle c s = (s, NotRegistered).
Proof.
  intros Hc Hn Hu.
  destruct c; try discriminate; injection Hc as ->; simpl handle;
    unfold_handlers; now rewrite Hu.
Qed.

(** X3.  A user who is not registered gets the not-registered reply to
    /set_mileage, /ride_start, /ride_end, /fill, /status, /settle and
    /pay, whatever the arguments, and the state stays as it was. *)
Theorem unregistered_is_refused (s : State) (c : command) (uid : string) :
  caller c = Some uid ->
  needs_registration c = true ->
  users s !! uid = None ->
  handle c s = (s, NotRegistered).
Proof.
  exact (not_registered_reply s c uid).
Qed.

Lemma unregistered_is_refused_witness :
  handle (CmdFill "w" (Some (5, 500))) borrowed_state
    = (borrowed_state, NotRegistered).
Proof.
  apply (unregistered_is_refused borrowed_state (CmdFill "w" (Some (5, 500))) "w").
  - reflexivity.
  - reflexivity.
  - vm_compute; reflexivity.
Defined.

(** ** Registration *)


(** The name is compared after [strip] and [title]: any spelling of a
    bucket name in upper and lower case is accepted. *)
Example title_examples :
  title (strip "archit") = "Archit" /\
  title (strip "ADITYA") = "Aditya" /\
  title (strip "  aDiTyA ") = "Aditya" /\
  title "adi tya" = "Adi Tya" /\
  title "x1archit" = "X1Archit".
Proof. repeat split; reflexivity. Qed.



(** X5.  A registration stays: whatever command runs other than /reset
    and a /register by the same user, a registered user is registered
    to the same bucket afterwards. *)
Theorem registration_persists (s : State) (c : command) (uid : string) (b : bucket) :
  users s !! uid = Some b ->
  c <> CmdReset ->
  (forall arg, c <> CmdRegister uid arg) ->
  users (fst (handle c s)) !! uid = Some b.
Proof.
  intros Hu Hreset Hreg.
  destruct c; simpl handle; unfold_handlers;
    try (handler_cases; simpl; exact Hu).
  - destruct arg as [name|]; [|exact Hu].
    destruct (parse_bucket _); [|exact Hu]. simpl.
    rewrite lookup_insert_ne; [exact Hu|].
    intros ->. now elim (Hreg (Some name)).
  - now elim Hreset.
Qed.

Lemma registration_persists_witness :
  users (fst (handle (CmdRegister "v" (Some "Aditya")) borrowed_state)) !! "u"
    = Some Aditya.
Proof.
  apply (registration_persists borrowed_state
           (CmdRegister "v" (Some "Aditya")) "u" Aditya).
  - vm_compute; reflexivity.
  - discriminate.
  - discriminate.
Defined.

(** ** /reset *)

(** X6.  /reset, from any state and by anyone, installs the initial
    state: tanks and debts at zero, the default mileage, price zero, no
    pending ride and no registered user.  So right after it every
    command that needs a registration is answered not registered and
    changes nothing. *)
Theorem reset_wipes_everything (s : State) (c : command) (uid : string) :
  let s0 := fst (handle CmdReset s) in
  s0 = new_state /\
  total_tank s0 == 0 /\ total_debt s0 == 0 /\
  mileage s0 = DEFAULT_MILEAGE /\ last_price_per_liter s0 = 0 /\
  users s0 !! uid = None /\ ride_start s0 !! uid = None /\
  (caller c = Some uid -> needs_registration c = true ->
     handle c s0 = (s0, NotRegistered)).
Proof.
  cbv zeta. simpl handle. simpl fst.
  repeat split; try reflexivity.
  intros Hc Hn. now apply not_registered_reply with (uid := uid).
Qed.

Lemma reset_wipes_everything_witness :
  fst (handle CmdReset borrowed_state) = new_state /\
  handle (CmdStatus "u") (fst (handle CmdReset borrowed_state))
    = (fst (handle CmdReset borrowed_state), NotRegistered).
Proof.
  destruct (reset_wipes_everything borrowed_state (CmdStatus "u") "u")
    as (Hnew & _ & _ & _ & _ & _ & _ & Hrefused).
  split; [exact Hnew | apply Hrefused; reflexivity].
Defined.

(** ** Which commands touch what *)

(** X7.  The mileage changes only through an accepted /set_mileage,
    which stores its argument, or through /reset; the last price
    changes only through an accepted /fill, which stores cost over
    liters, or through /reset. *)
Theorem settings_change_only_by (s : State) (c : command) :
  let s' := fst (handle c s) in
  (mileage s' = mileage s \/ c = CmdReset \/
   exists uid kmpl, c = CmdSetMileage uid (Some kmpl) /\
                    snd (handle c s) = MileageSet kmpl /\
                    mileage s' = kmpl) /\
  (last_price_per_liter s' = last_price_per_liter s \/ c = CmdReset \/
   exists uid liters total_cost clear_l remaining_liters other,
     c = CmdFill uid (Some (liters, total_cost)) /\
     snd (handle c s)
       = FillRecorded clear_l remaining_liters (total_cost / liters) other /\
     last_price_per_liter s' = total_cost / liters).
Proof.
  cbv zeta. destruct c; simpl handle; unfold_handlers;
    try (split; [handler_cases; simpl; auto | handler_cases; simpl; auto]; fail).
  - split; [|handler_cases; simpl; auto].
    destruct (users s !! uid); [|auto].
    destruct arg as [kmpl|]; [|auto].
    destruct (Qleb kmpl 0); [auto|]. right; right. now exists uid, kmpl.
  - split; [handler_cases; simpl; auto|].
    destruct (users s !! uid) as [b|]; [|auto].
    destruct args as [[liters total_cost]|]; [|auto].
    destruct (Qleb liters 0 || Qleb total_cost 0); [auto|].
    right; right. cbv zeta.
    exists uid, liters, total_cost. do 3 eexists.
    split; [reflexivity|]. split; [reflexivity|].
    destruct (Qltb 0 _); reflexivity.
Qed.

(** X8.  No command of a registered user changes the other bucket's
    debt, and the other bucket's tank changes only in step with the
    caller's own debt: a fill that clears [clear_l > 0] liters and a
    payment by amount add the cleared liters to the other tank and take
    them off the caller's debt, /pay full adds the whole debt to the
    other tank and sets the debt to zero, a ride that borrows takes the
    borrowed liters out of the other tank and adds them to the caller's
    debt, and in every other case both keep their values. *)
Theorem others_share_untouched (s : State) (c : command) (uid : string) (me : bucket) :
  caller c = Some uid ->
  users s !! uid = Some me ->
  let s' := fst (handle c s) in
  get (debt s') (other_bucket me) = get (debt s) (other_bucket me) /\
  lockstep (snd (handle c s)) me s s'.
Proof.
  intros Hc Hu s'. subst s'. unfold lockstep.
  destruct c; try discriminate; injection Hc as ->; simpl handle;
    unfold_handlers; try rewrite Hu.
  - handler_cases; destruct me; simpl; auto.
  - handler_cases; destruct me; simpl; auto.
  - handler_cases; destruct me; simpl; auto.
  - destruct (ride_start s !! uid) as [start_km|]; [|destruct me; simpl; auto].
    destruct arg as [end_km|]; [|destruct me; simpl; auto]. cbv zeta.
    destruct (Qltb (end_km - start_km) 0); [destruct me; simpl; auto|].
    match goal with |- context [Qleb ?a ?b] => destruct (Qleb a b) end;
      [destruct me; simpl; auto|].
    match goal with |- context [Qltb ?a ?b] => destruct (Qltb a b) end;
      [destruct me; simpl; auto|].
    match goal with |- context [Qleb ?a ?b] => leb_cases a b end.
    + destruct me; simpl; auto.
    + split; [destruct me; reflexivity|]. right.
      split; [simpl in *; lra|]. destruct me; split; reflexivity.
  - destruct args as [[liters total_cost]|]; [|destruct me; simpl; auto].
    destruct (Qleb liters 0 || Qleb total_cost 0); [destruct me; simpl; auto|].
    cbv zeta.
    change (debt (with_price (total_cost / liters) s)) with (debt s).
    ltb_cases 0 (pymin liters (get (debt s) me)).
    + split; [destruct me; reflexivity|]. left.
      split; [assumption|]. destruct me; split; reflexivity.
    + split; [destruct me; reflexivity|]. right.
      split; [assumption|]. destruct me; split; reflexivity.
  - handler_cases; destruct me; simpl; auto.
  - handler_cases; destruct me; simpl; auto.
  - handler_cases; destruct me; simpl; auto.
Qed.

Lemma others_share_untouched_witness :
  lockstep (snd (handle (CmdRideEnd "u" (Some 80)) riding_state)) Aditya
    riding_state (fst (handle (CmdRideEnd "u" (Some 80)) riding_state)).
Proof.
  destruct (others_share_untouched riding_state (CmdRideEnd "u" (Some 80)) "u" Aditya)
    as [_ Hstep].
  - reflexivity.
  - vm_compute; reflexivity.
  - exact Hstep.
Defined.

(** X9.  The pending ride start of a user is touched only by that
    user's own commands and by /reset: every other command leaves it as
    it was, present with the same reading or absent. *)
Theorem pending_start_isolated (s : State) (c : command) (uid : string) :
  caller c <> Some uid ->
  c <> CmdReset ->
  ride_start (fst (handle c s)) !! uid = ride_start s !! uid.
Proof.
  intros Hc Hreset.
  destruct c; simpl handle; unfold_handlers;
    try (handler_cases; simpl; reflexivity).
  - assert (uid0 <> uid) by (intros ->; now elim Hc).
    handler_cases; simpl; trivial. now apply lookup_insert_ne.
  - assert (uid0 <> uid) by (intros ->; now elim Hc).
    handler_cases; simpl; trivial;
      rewrite ?lookup_insert_ne, ?lookup_delete_ne by assumption; reflexivity.
  - now elim Hreset.
Qed.

Lemma pending_start_isolated_witness :
  ride_start (fst (handle (CmdRideStart "v" (Some 7)) riding_state)) !! "u"
    = ride_start riding_state !! "u".
Proof.
  apply (pending_start_isolated riding_state (CmdRideStart "v" (Some 7)) "u").
  - discriminate.
  - discriminate.
Defined.

(** X10.  An accepted ride end consumes the pending start: a further
    /ride_end by the same user, with any argument, is answered that no
    ride was started and changes nothing, so a ride is charged once. *)
Theorem ride_end_charged_once
  (s : State) (uid : string) (arg arg' : option Q) :
  rejection (snd (ride_end uid arg s)) = false ->
  let s' := fst (ride_end uid arg s) in
  ride_end uid arg' s' = (s', NoRideStarted).
Proof.
  cbv zeta. unfold ride_end at 1 3 4, require_registered, user_bucket.
  destruct (users s !! uid) as [b|] eqn:Hu; [|discriminate].
  destruct (ride_start s !! uid) as [start_km|]; [|discriminate].
  destruct arg as [end_km|]; [|discriminate]. cbv zeta.
  destruct (Qltb (end_km - start_km) 0); [discriminate|].
  match goal with |- context [Qleb ?a ?b] => destruct (Qleb a b) end;
    [discriminate|].
  match goal with |- context [Qltb ?a ?b] => destruct (Qltb a b) end;
    [discriminate|].
  match goal with |- context [Qleb ?a ?b] => destruct (Qleb a b) end;
    intros _; simpl fst;
    unfold ride_end, require_registered, user_bucket; simpl;
    rewrite Hu, lookup_delete_eq; reflexivity.
Qed.

Lemma ride_end_charged_once_witness :
  ride_end "u" (Some 120) (fst (ride_end "u" (Some 80) riding_state))
    = (fst (ride_end "u" (Some 80) riding_state), NoRideStarted).
Proof.
  apply (ride_end_charged_once riding_state "u" (Some 80) (Some 120)).
  vm_compute; reflexivity.
Defined.

(** ** /status *)

(** X11.  /status by a registered user changes nothing and shows both
    tanks, the mileage and the last price.  Its debt line says that the
    caller owes when the caller's debt is the larger one, that the
    other owes when the other's is, and all square when they are equal;
    the liters it names are the difference of the two debts, above
    zero, and the cash is those liters times the last price. *)
Theorem status_spec (s : State) (uid : string) (me : bucket) :
  users s !! uid = Some me ->
  let other := other_bucket me in
  exists msg,
    status uid s
      = (s, StatusView (get (tank s) Aditya) (get (tank s) Archit) msg
              (mileage s) (last_price_per_liter s)) /\
    match msg with
    | YouOwe l rs =>
        get (debt s) other < get (debt s) me /\ 0 < l /\
        l = get (debt s) me - get (debt s) other /\
        rs = l * last_price_per_liter s
    | OwesYou l rs =>
        get (debt s) me < get (debt s) other /\ 0 < l /\
        l = get (debt s) other - get (debt s) me /\
        rs = l * last_price_per_liter s
    | AllSquare => get (debt s) me == get (debt s) other
    end.
Proof.
  intros Hu other. unfold status, require_registered, user_bucket.
  rewrite Hu. cbv zeta. fold other.
  ltb_cases (get (debt s) other) (get (debt s) me).
  { eexists; split; [reflexivity|]. repeat split; trivial; lra. }
  ltb_cases (get (debt s) me) (get (debt s) other).
  { eexists; split; [reflexivity|]. repeat split; trivial; lra. }
  eexists; split; [reflexivity|]. simpl. lra.
Qed.

Lemma status_spec_witness :
  exists msg,
    snd (status "u" borrowed_state)
      = StatusView (get (tank borrowed_state) Aditya)
          (get (tank borrowed_state) Archit) msg
          (mileage borrowed_state) (last_price_per_liter borrowed_state) /\
    exists l rs, msg = YouOwe l rs.
Proof.
  destruct (status_spec borrowed_state "u" Aditya) as (msg & Heq & Hmsg).
  - vm_compute; reflexivity.
  - exists msg. split; [now rewrite Heq|].
    destruct msg as [|l rs|l rs].
    + exfalso. vm_compute in Hmsg. discriminate.
    + now exists l, rs.
    + exfalso. destruct Hmsg as (Hlt & _). vm_compute in Hlt. discriminate.
Defined.

(** X12.  The two buckets see the same debt from opposite sides: when
    one user's /status says "you owe" some liters and cash, the /status
    of a user of the other bucket says "owes you" the same liters and
    cash, and the other way round; all square is all square for both. *)
Theorem status_views_agree (s : State) (u v : string) (b : bucket) :
  users s !! u = Some b ->
  users s !! v = Some (other_bucket b) ->
  debt_line (snd (status v s))
    = option_map mirror (debt_line (snd (status u s))).
Proof.
  intros Hu Hv. unfold status, require_registered, user_bucket.
  rewrite Hu, Hv. cbv zeta.
  assert (Hexcl : Qltb (get (debt s) (other_bucket b)) (get (debt s) b) = true ->
                  Qltb (get (debt s) b) (get (debt s) (other_bucket b)) = false).
  { intros H1. apply Qltb_true in H1. apply Qltb_false. lra. }
  destruct b; simpl in *;
    destruct (Qltb (of_archit (debt s)) (of_aditya (debt s))) eqn:E1;
    destruct (Qltb (of_aditya (debt s)) (of_archit (debt s))) eqn:E2;
    simpl; try reflexivity; specialize (Hexcl eq_refl); discriminate.
Qed.

Lemma status_views_agree_witness :
  debt_line (snd (status "v" borrowed_state))
    = option_map mirror (debt_line (snd (status "u" borrowed_state))).
Proof.
  apply (status_views_agree borrowed_state "u" "v" Aditya).
  - vm_compute; reflexivity.
  - vm_compute; reflexivity.
Defined.

(** ** /pay *)

(** X13.  /pay by a registered user tests in this order and refuses
    without changing anything: no argument gives the usage reply; an
    argument that is neither "full" nor a number, or a number not above
    zero, gives invalid amount, whatever the price and the debt; with a
    valid amount, a price not above zero gives no price set, whatever
    the debt; and only then a debt below [1e-9] gives no debt. *)
Theorem pay_refusal_order (s : State) (uid : string) (b : bucket) (amount : Q) :
  users s !! uid = Some b ->
  pay uid None s = (s, Usage) /\
  pay uid (Some NotANumber) s = (s, InvalidAmount) /\
  (amount <= 0 -> pay uid (Some (Amount amount)) s = (s, InvalidAmount)) /\
  (0 < amount -> last_price_per_liter s <= 0 ->
     pay uid (Some (Amount amount)) s = (s, NoPriceSet)) /\
  (0 < amount -> 0 < last_price_per_liter s -> get (debt s) b < EPS ->
     pay uid (Some (Amount amount)) s = (s, NoDebt)).
Proof.
  intros Hu. unfold pay, require_registered, user_bucket. rewrite Hu.
  split; [reflexivity|]. split; [reflexivity|].
  leb_cases amount 0.
  { repeat split; trivial; intros; lra. }
  leb_cases (last_price_per_liter s) 0.
  { repeat split; trivial; intros; lra. }
  ltb_cases (get (debt s) b) EPS.
  { repeat split; trivial; intros; lra. }
  repeat split; intros; lra.
Qed.

Lemma pay_refusal_order_witness :
  pay "u" (Some (Amount 50)) priceless_state = (priceless_state, NoPriceSet) /\
  pay "u" (Some (Amount 0)) priceless_state = (priceless_state, InvalidAmount).
Proof.
  split.
  - destruct (pay_refusal_order priceless_state "u" Aditya 50)
      as (_ & _ & _ & Hprice & _); [vm_compute; reflexivity|].
    apply Hprice; [vm_compute; reflexivity | vm_compute; discriminate].
  - destruct (pay_refusal_order priceless_state "u" Aditya 0)
      as (_ & _ & Hbad & _); [vm_compute; reflexivity|].
    apply Hbad. vm_compute; discriminate.
Defined.

(** X14.  A debt above zero but below [1e-9] is treated differently by
    the two forms of /pay: with an amount (above zero, price set) the
    reply is no debt and nothing changes, while /pay full clears it,
    setting the debt to exactly zero and adding it to the other
    bucket's tank. *)
Theorem tiny_debt_pay_modes (s : State) (uid : string) (b : bucket) (amount : Q) :
  users s !! uid = Some b ->
  0 < get (debt s) b -> get (debt s) b < EPS ->
  0 < amount -> 0 < last_price_per_liter s ->
  pay uid (Some (Amount amount)) s = (s, NoDebt) /\
  snd (pay uid (Some Full) s) = PaidFull (get (debt s) b) /\
  get (debt (fst (pay uid (Some Full) s))) b = 0 /\
  get (tank (fst (pay uid (Some Full) s))) (other_bucket b)
    = get (tank s) (other_bucket b) + get (debt s) b.
Proof.
  intros Hu Hpos Hsmall Ha Hp.
  unfold pay, require_registered, user_bucket. rewrite Hu.
  leb_cases amount 0; [lra|].
  leb_cases (last_price_per_liter s) 0; [lra|].
  ltb_cases (get (debt s) b) EPS; [|lra].
  leb_cases (get (debt s) b) 0; [lra|].
  destruct b; simpl; repeat split; reflexivity.
Qed.

Lemma tiny_debt_pay_modes_witness :
  pay "u" (Some (Amount 10)) tiny_debt_state = (tiny_debt_state, NoDebt) /\
  get (debt (fst (pay "u" (Some Full) tiny_debt_state))) Aditya = 0.
Proof.
  destruct (tiny_debt_pay_modes tiny_debt_state "u" Aditya 10)
    as (Hamount & _ & Hfull & _).
  - vm_compute; reflexivity.
  - vm_compute; reflexivity.
  - vm_compute; reflexivity.
  - vm_compute; reflexivity.
  - vm_compute; reflexivity.
  - split; [exact Hamount | exact Hfull].
Defined.

(** X15.  A payment by amount that is worth at least the debt clears
    the debt and no more: for a registered user with a debt of at least
    [1e-9], an amount above zero and a price above zero with
    [debt <= amount / price], the cleared liters are the debt itself,
    the debt left is [debt - debt], which is zero, and the other
    bucket's tank gets the old debt; the rest of the money buys
    nothing. *)
Theorem overpayment_clears_debt (s : State) (uid : string) (b : bucket) (amount : Q) :
  users s !! uid = Some b ->
  0 < amount -> 0 < last_price_per_liter s ->
  EPS <= get (debt s) b ->
  get (debt s) b <= amount / last_price_per_liter s ->
  let s' := fst (pay uid (Some (Amount amount)) s) in
  snd (pay uid (Some (Amount amount)) s)
    = Paid amount (get (debt s) b) (get (debt s) b - get (debt s) b) /\
  get (debt s') b = get (debt s) b - get (debt s) b /\
  get (debt s') b == 0 /\
  get (tank s') (other_bucket b)
    = get (tank s) (other_bucket b) + get (debt s) b /\
  get (tank s') b = get (tank s) b.
Proof.
  intros Hu Ha Hp Hd Hover. cbv zeta.
  unfold pay, require_registered, user_bucket. rewrite Hu.
  leb_cases amount 0; [lra|].
  leb_cases (last_price_per_liter s) 0; [lra|].
  ltb_cases (get (debt s) b) EPS; [lra|]. cbv zeta.
  assert (Hmin : pymin (get (debt s) b) (amount / last_price_per_liter s)
                 = get (debt s) b).
  { unfold pymin.
    ltb_cases (amount / last_price_per_liter s) (get (debt s) b);
      [lra | reflexivity]. }
  rewrite Hmin.
  destruct b; simpl; repeat split; try reflexivity; lra.
Qed.

Lemma overpayment_clears_debt_witness :
  get (debt (fst (pay "u" (Some (Amount 50000)) borrowed_state))) Aditya == 0.
Proof.
  destruct (overpayment_clears_debt borrowed_state "u" Aditya 50000)
    as (_ & _ & Hzero & _).
  - vm_compute; reflexivity.
  - vm_compute; reflexivity.
  - vm_compute; reflexivity.
  - vm_compute; discriminate.
  - vm_compute; discriminate.
  - exact Hzero.
Defined.

(** ** /fill and the debt *)

(** X17.  A fill pays the filler's debt first.  In a reachable state,
    for a registered filler and liters and cost above zero: if the
    liters do not exceed the debt, all of them go to the other bucket's
    tank, the debt shrinks by them and the filler's own tank gets
    nothing; if they reach the debt, the debt becomes zero, the other
    bucket's tank gets the old debt and the filler's tank gets the
    rest. *)
Theorem fill_pays_debt_first
  (s : State) (uid : string) (b : bucket) (liters total_cost : Q) :
  reachable s ->
  users s !! uid = Some b ->
  0 < liters -> 0 < total_cost ->
  let other := other_bucket b in
  let s' := fst (fill uid (Some (liters, total_cost)) s) in
  (liters <= get (debt s) b ->
     get (debt s') b == get (debt s) b - liters /\
     get (tank s') other == get (tank s) other + liters /\
     get (tank s') b == get (tank s) b) /\
  (get (debt s) b <= liters ->
     get (debt s') b == 0 /\
     get (tank s') other == get (tank s) other + get (debt s) b /\
     get (tank s') b == get (tank s) b + (liters - get (debt s) b)).
Proof.
  intros Hs Hu Hl Hc other s'.
  pose proof (inv_debt s (reachable_inv s Hs) b) as Hd.
  destruct (fill_accepted s uid b liters total_cost Hu Hl Hc Hd)
    as (_ & _ & Hdb & _ & Hto & Htb & _).
  fold other s' in Hdb, Hto, Htb.
  pose proof (pymin_Qmin liters (get (debt s) b)) as Hmin.
  set (clear_l := pymin liters (get (debt s) b)) in *. clearbody clear_l.
  split; intros Hcmp.
  - rewrite Q.min_l in Hmin by exact Hcmp. repeat split; lra.
  - rewrite Q.min_r in Hmin by exact Hcmp. repeat split; lra.
Qed.

Lemma fill_pays_debt_first_witness :
  get (tank (fst (fill "u" (Some (1 # 2, 50)) borrowed_state))) Aditya
    == get (tank borrowed_state) Aditya.
Proof.
  destruct (fill_pays_debt_first borrowed_state "u" Aditya (1 # 2) 50)
    as [Hsmall _].
  - exact borrowed_state_reachable.
  - vm_compute; reflexivity.
  - vm_compute; reflexivity.
  - vm_compute; reflexivity.
  - destruct Hsmall as (_ & _ & Hown); [vm_compute; discriminate | exact Hown].
Defined.

(** ** /set_mileage *)

(** X18.  The mileage is one value for the vehicle: after any
    registered user sets it to a value above zero, the next ride end of
    any rider, the same user or the other one, with a pending start, an
    end reading not below it and enough fuel, is accepted and charged
    the distance divided by that value. *)
Theorem mileage_is_shared
  (s : State) (v u : string) (bv me : bucket) (kmpl start_km end_km : Q) :
  users s !! v = Some bv ->
  0 < kmpl ->
  users s !! u = Some me ->
  ride_start s !! u = Some start_km ->
  start_km <= end_km ->
  (end_km - start_km) / kmpl
    <= get (tank s) me + get (tank s) (other_bucket me) + EPS ->
  let s1 := fst (set_mileage v (Some kmpl) s) in
  snd (set_mileage v (Some kmpl) s) = MileageSet kmpl /\
  exists borrowed,
    snd (ride_end u (Some end_km) s1)
      = RideEnded (end_km - start_km) ((end_km - start_km) / kmpl) borrowed
          (other_bucket me).
Proof.
  intros Hv Hk Hu Hpending Hle Hfuel. cbv zeta.
  unfold set_mileage, require_registered, user_bucket. rewrite Hv.
  leb_cases kmpl 0; [lra|]. simpl fst. simpl snd.
  split; [reflexivity|].
  rewrite (ride_end_accepted (with_mileage kmpl s) u me start_km end_km);
    trivial.
  simpl mileage.
  match goal with |- context [Qleb ?a ?b] => destruct (Qleb a b) end;
    eexists; reflexivity.
Qed.

Lemma mileage_is_shared_witness :
  exists borrowed,
    snd (ride_end "u" (Some 80) (fst (set_mileage "v" (Some 20) riding_state)))
      = RideEnded (80 - 0) ((80 - 0) / 20) borrowed Archit.
Proof.
  destruct (mileage_is_shared riding_state "v" "u" Archit Aditya 20 0 80)
    as (_ & Hride).
  - vm_compute; reflexivity.
  - vm_compute; reflexivity.
  - vm_compute; reflexivity.
  - vm_compute; reflexivity.
  - vm_compute; discriminate.
  - vm_compute; discriminate.
  - exact Hride.
Defined.
